(** * chatbot.py: retrieval-to-prompt pipeline of the RAG chatbot

    A shallow embedding of [src/chatbot.py]: the token estimator
    [estimate_tokens], the greedy packing loop of [respond] that builds the
    knowledge block, the budget arithmetic, and the classification of the
    completion endpoint's reply, including the [try]/[except] boundary.

    Python [str] values are modelled as [string]; as the code only takes
    lengths and concatenates, the alphabet plays no role.  Python's unbounded
    [int] is [Z], and [//] on integers is floor division, which is [Z.div]. *)

From Stdlib Require Import ZArith String Ascii List Lia.
From Stdlib Require Import Floats.SpecFloat.
From stdpp Require Import gmap strings list fin_maps pretty.

Local Open Scope Z_scope.

(** ** Strings *)

Module Str.

(** The line feed, Python's ["\n"]. *)
Definition LF : ascii := "010"%char.

(** The literal ["\n\n"] appended after every included passage. *)
Definition blank_line : string := String LF (String LF EmptyString).

(** [join ss]: left-to-right concatenation of a list of strings. *)
Definition join (ss : list string) : string := foldr String.app EmptyString ss.

(** [replicate n c]: Python's [c * n] for a one-character string. *)
Fixpoint replicate (n : nat) (c : ascii) : string :=
  match n with
  | O => EmptyString
  | S n' => String c (replicate n' c)
  end.

(** [contains needle s]: Python's [needle in s] on two strings. *)
Fixpoint contains (needle s : string) : bool :=
  String.prefix needle s ||
  match s with
  | EmptyString => false
  | String _ s' => contains needle s'
  end.

(** [ends_with suffix s]: Python's [s.endswith(suffix)], as a proposition. *)
Definition ends_with (suffix s : string) : Prop :=
  ∃ front, s = front +:+ suffix.

End Str.

(** ** Token estimator *)

(** [estimate_tokens], lines 31-33: [len(text) // 4]. *)
Definition estimate_tokens (text : string) : Z :=
  Z.of_nat (String.length text) `div` 4.

(** The estimator as the specification words it: the length of the text
    divided by four and rounded down, that is the largest whole number of
    four-character groups that fit into the text. *)
Definition estimate_reference (text : string) : Z :=
  Z.of_nat (Nat.div (String.length text) 4).

(** ** Retrieved passages *)

(** What [retriever.invoke] returns: LangChain documents, of which the code
    reads the [page_content] attribute only. *)
Record Document : Type := { page_content : string }.

(** ** The packing loop, lines 41-59 *)

(** One iteration of [for doc in docs], on the pair of local variables
    [(knowledge, total_tokens)]. *)
Definition pack_step (max_knowledge_tokens : Z)
    (st : string * Z) (doc : Document) : string * Z :=
  let '(knowledge, total_tokens) := st in
  let doc_content := page_content doc in
  let doc_tokens := estimate_tokens doc_content in
  if total_tokens + doc_tokens <=? max_knowledge_tokens
  then (knowledge +:+ (doc_content +:+ Str.blank_line), total_tokens + doc_tokens)
  else (knowledge, total_tokens).

(** The loop from an arbitrary state of the two variables. *)
Definition pack_from (max_knowledge_tokens : Z)
    (st : string * Z) (docs : list Document) : string * Z :=
  fold_left (pack_step max_knowledge_tokens) docs st.

(** The loop as [respond] runs it: empty [knowledge], [total_tokens = 0]. *)
Definition pack_loop (docs : list Document) (max_knowledge_tokens : Z)
    : string * Z :=
  pack_from max_knowledge_tokens (EmptyString, 0) docs.

(** The knowledge block the loop leaves in [knowledge]. *)
Definition knowledge_block (docs : list Document) (budget : Z) : string :=
  fst (pack_loop docs budget).

(** ** Vocabulary for stating properties of the loop *)

(** The passages the loop accepts, in the order it meets them, when it starts
    with running total [total]. *)
Fixpoint included (budget total : Z) (docs : list Document) : list Document :=
  match docs with
  | [] => []
  | doc :: rest =>
      let cost := estimate_tokens (page_content doc) in
      if total + cost <=? budget
      then doc :: included budget (total + cost) rest
      else included budget total rest
  end.

(** What the loop has computed after its first [i] iterations. *)
Definition pack_prefix (docs : list Document) (B : Z) (i : nat) : string * Z :=
  pack_loop (take i docs) B.

(** Sum of the per-passage estimates. *)
Definition tokens_of (docs : list Document) : Z :=
  foldr (λ doc acc, estimate_tokens (page_content doc) + acc) 0 docs.

(** Total number of characters of the passages' texts. *)
Definition text_length (docs : list Document) : nat :=
  foldr (λ doc acc, (String.length (page_content doc) + acc)%nat) 0%nat docs.

(** Every passage followed by the blank line, concatenated. *)
Definition block_of (docs : list Document) : string :=
  Str.join (map (λ doc, page_content doc +:+ Str.blank_line) docs).

(** ** Budget arithmetic, lines 17 and 43-48 *)

Definition MAX_TOKENS : Z := 14000.

Definition system_prompt : string :=
  "You answer questions based only on the provided knowledge.".

(** The f-string [f"Question: {message}\n\nKnowledge: "]. *)
Definition user_prompt_template (message : string) : string :=
  "Question: " +:+ message +:+ Str.blank_line +:+ "Knowledge: ".

Definition base_tokens (message : string) : Z :=
  estimate_tokens system_prompt + estimate_tokens (user_prompt_template message).

Definition max_knowledge_tokens (message : string) : Z :=
  MAX_TOKENS - base_tokens message - 1000.

(** ** The fragment of Python's object model the reply handling runs on *)

Module Py.

(** What [response.json()] can return, and what [respond] itself returns:
    [None], [bool], [int], [float], [str], [list], and [dict] with string
    keys (a decoded JSON object has no other keys). *)
#[warning="-register-all"] Inductive value : Type :=
  | VNone
  | VBool (b : bool)
  | VInt (z : Z)
  | VFloat (f : spec_float)
  | VStr (s : string)
  | VList (l : list value)
  | VDict (m : gmap string value).

(** A subscript as the code writes them: [x["error"]] or [x[0]]. *)
Inductive key : Type :=
  | KStr (s : string)
  | KInt (i : Z).

(** The operation a [TypeError] comes from. *)
Inductive operation : Type :=
  | OpContains
  | OpSubscript (k : key)
  | OpLen.

(** Instances of [Exception]: the ones the interpreter raises for the
    operations above, and [Raised], whatever a collaborator (the retriever,
    [requests], the JSON decoder) raises, by class name and arguments. *)
Inductive exn : Type :=
  | KeyError (k : key)
  | IndexError (container : value) (i : Z)
  | TypeError (op : operation) (operand : value)
  | Raised (class args : string).

(** What can be raised without being an instance of [Exception]: the other
    subclasses of [BaseException].  The interpreter's operations above never
    raise them; a collaborator can (an interrupt while the retriever or the
    network call is waiting, an exit requested by a library). *)
Inductive base_exn : Type :=
  | KeyboardInterrupt
  | SystemExit (code : value)
  | GeneratorExit
  | OtherBase (class args : string).

(** How a call ends: it returns, it raises an instance of [Exception], or it
    raises something else. *)
Inductive result (A : Type) : Type :=
  | Return (a : A)
  | Raise (e : exn)
  | RaiseBase (b : base_exn).
Global Arguments Return {A} a.
Global Arguments Raise {A} e.
Global Arguments RaiseBase {A} b.

(** [needle in container], for a string [needle]. *)
Definition contains (needle : string) (container : value) : result bool :=
  match container with
  | VDict m => Return (bool_decide (is_Some (m !! needle)))
  | VList l =>
      Return (existsb (λ x, match x with
                            | VStr s => bool_decide (s = needle)
                            | _ => false
                            end) l)
  | VStr s => Return (Str.contains needle s)
  | _ => Raise (TypeError OpContains container)
  end.

(** Python's index normalisation for a sequence of length [n]. *)
Definition norm_index (n : nat) (i : Z) : option nat :=
  let j := if i <? 0 then i + Z.of_nat n else i in
  if (0 <=? j) && (j <? Z.of_nat n) then Some (Z.to_nat j) else None.

(** [container[k]]. *)
Definition getitem (container : value) (k : key) : result value :=
  match container, k with
  | VDict m, KStr s =>
      match m !! s with
      | Some v => Return v
      | None => Raise (KeyError k)
      end
  | VDict _, KInt _ => Raise (KeyError k)
  | VList l, KInt i =>
      match norm_index (length l) i ≫= (l !!.) with
      | Some v => Return v
      | None => Raise (IndexError container i)
      end
  | VStr s, KInt i =>
      match norm_index (String.length s) i ≫= (λ j, String.get j s) with
      | Some c => Return (VStr (String c EmptyString))
      | None => Raise (IndexError container i)
      end
  | _, _ => Raise (TypeError (OpSubscript k) container)
  end.

(** [len(v)]. *)
Definition len (v : value) : result Z :=
  match v with
  | VDict m => Return (Z.of_nat (size m))
  | VList l => Return (Z.of_nat (length l))
  | VStr s => Return (Z.of_nat (String.length s))
  | _ => Raise (TypeError OpLen v)
  end.

(** Computations of [respond]: they print to standard output and return or
    raise. *)
Definition M (A : Type) : Type := list string → list string * result A.

Definition ret {A} (a : A) : M A := λ out, (out, Return a).

Definition bind {A B} (m : M A) (f : A → M B) : M B :=
  λ out, match m out with
         | (out', Return a) => f a out'
         | (out', Raise e) => (out', Raise e)
         | (out', RaiseBase b) => (out', RaiseBase b)
         end.

Definition lift {A} (r : result A) : M A := λ out, (out, r).

Definition print (line : string) : M unit := λ out, (out ++ [line], Return tt).

(** [try: body  except Exception as e: handler e]: only instances of
    [Exception] reach the handler, anything else raised by the body goes on
    to the caller. *)
Definition try_except {A} (body : M A) (handler : exn → M A) : M A :=
  λ out, match body out with
         | (out', Raise e) => handler e out'
         | returned => returned
         end.

End Py.

Import Py.

Notation "x <- m ;; k" := (Py.bind m (λ x, k))
  (at level 100, m at next level, right associativity).

(** ** The collaborators of [respond] *)

(** What [requests.post] returns, as far as the code looks at it: the
    [status_code] attribute and the outcome of the [json()] method. *)
Record Response : Type := {
  status_code : Z;
  json : result value
}.

(** Everything [respond] reads from outside: the configuration globals, the
    retriever, the HTTP client, and three functions of the interpreter whose
    output the code passes on without looking at it ([repr] of a float, list
    or dict, [str] of an exception, [traceback.format_exc]). *)
Record World : Type := {
  OPENROUTER_API_KEY : option string;
  MODEL_NAME : string;
  retriever_invoke : string → result (list Document);
  requests_post : string → value → value → result Response;
  repr : value → string;
  exn_str : exn → string;
  format_exc : exn → string
}.

(** A replacement field [{v}] of an f-string. *)
Definition format (w : World) (v : value) : string :=
  match v with
  | VStr s => s
  | VNone => "None"
  | VBool b => if b then "True" else "False"
  | VInt z => pretty z
  | _ => repr w v
  end.

(** ** [respond], lines 35-104 *)

Definition URL : string := "https://openrouter.ai/api/v1/chat/completions".

Definition headers (w : World) : value :=
  VDict {[ "Authorization" :=
             VStr ("Bearer " +:+ format w (from_option VStr VNone (OPENROUTER_API_KEY w)));
           "Content-Type" := VStr "application/json" ]}.

Definition data (w : World) (message knowledge : string) : value :=
  VDict {[ "model" := VStr (MODEL_NAME w);
           "messages" :=
             VList [ VDict {[ "role" := VStr "system";
                              "content" := VStr system_prompt ]};
                     VDict {[ "role" := VStr "user";
                              "content" :=
                                VStr ("Question: " +:+ message +:+ Str.blank_line
                                      +:+ "Knowledge: " +:+ knowledge) ]} ];
           "max_tokens" := VInt 1000 ]}.

Definition could_not_parse : string := "Could not parse API response properly.".

(** Lines 88-99: what is returned once the body has been decoded. *)
Definition classify (w : World) (response_json : value) : M value :=
  has_error <- lift (contains "error" response_json);;
  if has_error : bool then
    error <- lift (getitem response_json (KStr "error"));;
    error_msg <- lift (getitem error (KStr "message"));;
    ret (VStr ("API Error: " +:+ format w error_msg))
  else
    has_choices <- lift (contains "choices" response_json);;
    nonempty <- (if has_choices : bool then
                   choices <- lift (getitem response_json (KStr "choices"));;
                   n <- lift (len choices);;
                   ret (0 <? n)
                 else ret false);;
    if nonempty : bool then
      choices <- lift (getitem response_json (KStr "choices"));;
      first <- lift (getitem choices (KInt 0));;
      has_message <- lift (contains "message" first);;
      if has_message : bool then
        choices <- lift (getitem response_json (KStr "choices"));;
        first <- lift (getitem choices (KInt 0));;
        msg <- lift (getitem first (KStr "message"));;
        answer <- lift (getitem msg (KStr "content"));;
        ret answer
      else ret (VStr could_not_parse)
    else ret (VStr could_not_parse).

(** Lines 37-99: the body of the [try]. *)
Definition respond_try (w : World) (message : string) (history : value) : M value :=
  docs <- lift (retriever_invoke w message);;
  let '(knowledge, total_tokens) := pack_loop docs (max_knowledge_tokens message) in
  response <- lift (requests_post w URL (headers w) (data w message knowledge));;
  _ <- print ("API Response: " +:+ pretty (status_code response));;
  response_json <- lift (json response);;
  classify w response_json.

(** Lines 101-104: the handler. *)
Definition respond_except (w : World) (e : exn) : M value :=
  _ <- print ("Error details: " +:+ format_exc w e);;
  ret (VStr ("Error: " +:+ exn_str w e)).

Definition respond (w : World) (message : string) (history : value) : M value :=
  try_except (respond_try w message history) (respond_except w).

(** What a call of [respond] gives back to its caller, whatever was printed
    before the call. *)
Definition respond_result (w : World) (message : string) (history : value)
    : result value :=
  snd (respond w message history []).

(** ** Inputs for worked examples *)

(** Passages of 2000, 16000 and 1200 characters: estimates 500, 4000, 300. *)
Definition doc_500 : Document := {| page_content := Str.replicate 2000 "a" |}.
Definition doc_4000 : Document := {| page_content := Str.replicate (4 * 4000) "b" |}.
Definition doc_300 : Document := {| page_content := Str.replicate 1200 "c" |}.

(** A world whose retriever returns [docs] and whose endpoint answers every
    request with status 200 and a body that decodes to [reply]. *)
Definition world_replying (docs : list Document) (reply : result value) : World :=
  {| OPENROUTER_API_KEY := Some "sk-or-v1-0000";
     MODEL_NAME := "openai/gpt-3.5-turbo";
     retriever_invoke := λ _, Return docs;
     requests_post := λ _ _ _, Return {| status_code := 200; json := reply |};
     repr := λ _, "<repr>";
     exn_str := λ e, match e with
                     | Raised _ args => args
                     | KeyError (KStr s) => "'" +:+ s +:+ "'"
                     | _ => "<str(e)>"
                     end;
     format_exc := λ _, "Traceback (most recent call last): ..." |}.

(** A world in which the network call raises [e]. *)
Definition world_offline (docs : list Document) (e : exn) : World :=
  {| OPENROUTER_API_KEY := None;
     MODEL_NAME := "openai/gpt-3.5-turbo";
     retriever_invoke := λ _, Return docs;
     requests_post := λ _ _ _, Raise e;
     repr := λ _, "<repr>";
     exn_str := λ e, match e with
                     | Raised _ args => args
                     | KeyError (KStr s) => "'" +:+ s +:+ "'"
                     | _ => "<str(e)>"
                     end;
     format_exc := λ _, "Traceback (most recent call last): ..." |}.


(** Reply bodies: an error object next to a well-formed choices list; the
    quota error of the specification's scenario; an empty choices list; a
    first choice whose message has no content; a first choice whose content
    is JSON [null]. *)
Definition body_error_and_choices : value :=
  VDict {[ "error" := VDict {[ "message" := VStr "insufficient_quota" ]};
           "choices" := VList [ VDict {[ "message" :=
                                   VDict {[ "content" := VStr "RAG is ..." ]} ]} ] ]}.

Definition body_quota : value :=
  VDict {[ "error" := VDict {[ "message" := VStr "insufficient_quota" ]} ]}.

Definition body_no_choices : value := VDict {[ "choices" := VList [] ]}.

Definition body_no_content : value :=
  VDict {[ "choices" := VList [ VDict {[ "message" := VDict ∅ ]} ] ]}.


(** ** Further vocabulary *)

(** The passages the loop passes over, in the order it meets them, when it
    starts with running total [total]: the ones [included] leaves out. *)
Fixpoint skipped (budget total : Z) (docs : list Document) : list Document :=
  match docs with
  | [] => []
  | doc :: rest =>
      let cost := estimate_tokens (page_content doc) in
      if total + cost <=? budget
      then skipped budget (total + cost) rest
      else doc :: skipped budget total rest
  end.


(** Decoded bodies that are not containers: [null], booleans and numbers. *)
Definition scalar (v : value) : bool :=
  match v with
  | VNone | VBool _ | VInt _ | VFloat _ => true
  | _ => false
  end.



(** ** Configuration, lines 10-17, and start-up, lines 115-119 *)

(** [os.getenv(name)] and [os.getenv(name, default)] on the process
    environment as [load_dotenv()] leaves it. *)
Definition getenv (environ : gmap string string) (name : string) : option string :=
  environ !! name.

Definition getenv_or (environ : gmap string string) (name fallback : string) : string :=
  from_option id fallback (environ !! name).

(** The two configuration globals read from the environment; the
    collaborators are those of [w]. *)
Definition configure (environ : gmap string string) (w : World) : World :=
  {| OPENROUTER_API_KEY := getenv environ "OPENROUTER_API_KEY";
     MODEL_NAME := getenv_or environ "OPENROUTER_MODEL" "openai/gpt-3.5-turbo";
     retriever_invoke := retriever_invoke w;
     requests_post := requests_post w;
     repr := repr w;
     exn_str := exn_str w;
     format_exc := format_exc w |}.

(** Truth value of [OPENROUTER_API_KEY] in a conditional: [None] and the
    empty string are false. *)
Definition truthy (v : option string) : bool :=
  match v with
  | Some (String _ _) => true
  | _ => false
  end.

(** The three lines printed under [if __name__ == "__main__"], before
    [demo.launch()] hands control to the interface. *)
Definition main (w : World) : M unit :=
  _ <- print ("Starting RAG Chatbot with model: " +:+ MODEL_NAME w);;
  _ <- print ("API Key available: "
              +:+ (if truthy (OPENROUTER_API_KEY w) then "Yes" else "No"));;
  print ("Using token limit: " +:+ pretty MAX_TOKENS).

(** A question of 51925 characters, and a reply with a well-formed answer
    followed by a second choice. *)
Definition long_question : string := Str.replicate (Z.to_nat 51925) "q".

Definition body_answer : value :=
  VDict {[ "choices" :=
             VList [ VDict {[ "message" := VDict {[ "content" := VStr "RAG is ..." ]} ]};
                     VDict {[ "message" := VDict {[ "content" := VStr "second" ]} ]} ] ]}.

(** A reply whose error member has no message, and one whose error member is
    a bare string. *)
Definition body_error_no_message : value :=
  VDict {[ "error" := VDict {[ "code" := VInt 429 ]} ]}.

Definition body_error_string : value :=
  VDict {[ "error" := VStr "rate limited" ]}.

(** * Properties *)

(** ** Strings *)

Module StrFacts.

Lemma app_cons (a : ascii) (s t : string) :
  String a s +:+ t = String a (s +:+ t).
Proof. reflexivity. Qed.

Lemma app_nil_r (s : string) : s +:+ EmptyString = s.
Proof. induction s as [|a s IH]; [done|]. by rewrite app_cons, IH. Qed.

Lemma app_assoc (s t u : string) : (s +:+ t) +:+ u = s +:+ (t +:+ u).
Proof. induction s as [|a s IH]; [done|]. by rewrite !app_cons, IH. Qed.

Lemma length_app (s t : string) :
  String.length (s +:+ t) = (String.length s + String.length t)%nat.
Proof.
  induction s as [|a s IH]; [done|].
  rewrite app_cons. simpl. by rewrite IH.
Qed.

Lemma length_replicate (n : nat) (c : ascii) :
  String.length (Str.replicate n c) = n.
Proof. induction n as [|n IH]; simpl; congruence. Qed.

Lemma join_app (xs ys : list string) :
  Str.join (xs ++ ys) = Str.join xs +:+ Str.join ys.
Proof.
  induction xs as [|x xs IH]; [done|].
  unfold Str.join in *. simpl. by rewrite IH, app_assoc.
Qed.

Lemma app_eq_nil (s t : string) :
  s +:+ t = EmptyString → s = EmptyString ∧ t = EmptyString.
Proof. destruct s; [done|]. rewrite app_cons. discriminate. Qed.

Lemma ends_with_app (suffix s t : string) :
  Str.ends_with suffix t → Str.ends_with suffix (s +:+ t).
Proof. intros [front ->]. exists (s +:+ front). by rewrite app_assoc. Qed.

End StrFacts.

(** ** The estimator *)

Section Estimator.

Lemma estimate_tokens_nonneg (text : string) : 0 ≤ estimate_tokens text.
Proof. unfold estimate_tokens. apply Z.div_pos; lia. Qed.

Lemma estimate_tokens_bounds (text : string) :
  4 * estimate_tokens text ≤ Z.of_nat (String.length text)
    < 4 * estimate_tokens text + 4.
Proof.
  unfold estimate_tokens.
  pose proof (Z.div_mod (Z.of_nat (String.length text)) 4 ltac:(lia)).
  pose proof (Z.mod_pos_bound (Z.of_nat (String.length text)) 4 ltac:(lia)).
  lia.
Qed.

Lemma estimate_tokens_short (text : string) :
  estimate_tokens text = 0 ↔ (String.length text < 4)%nat.
Proof.
  pose proof (estimate_tokens_bounds text).
  pose proof (estimate_tokens_nonneg text). lia.
Qed.

End Estimator.

(** C9: [estimate_tokens] is the reference definition (the length divided by
    four, rounded down); its value is a non-negative integer, it is [0] on the
    empty string, and a text at least as long as another has an estimate at
    least as large. *)
Theorem estimate_tokens_reference (s t : string)
    (Hlen : (String.length s ≤ String.length t)%nat) :
  estimate_tokens s = estimate_reference s ∧
  0 ≤ estimate_tokens s ∧
  4 * estimate_tokens s ≤ Z.of_nat (String.length s) < 4 * (estimate_tokens s + 1) ∧
  estimate_tokens EmptyString = 0 ∧
  estimate_tokens s ≤ estimate_tokens t.
Proof.
  split_and!.
  - unfold estimate_tokens, estimate_reference. by rewrite Nat2Z.inj_div.
  - apply estimate_tokens_nonneg.
  - pose proof (estimate_tokens_bounds s). lia.
  - pose proof (estimate_tokens_bounds s). lia.
  - reflexivity.
  - unfold estimate_tokens. apply Z.div_le_mono; lia.
Qed.

Lemma estimate_tokens_reference_witness :
  estimate_tokens "What is RAG?" = estimate_reference "What is RAG?" ∧
  0 ≤ estimate_tokens "What is RAG?" ∧
  4 * estimate_tokens "What is RAG?" ≤ Z.of_nat (String.length "What is RAG?")
    < 4 * (estimate_tokens "What is RAG?" + 1) ∧
  estimate_tokens EmptyString = 0 ∧
  estimate_tokens "What is RAG?"
    ≤ estimate_tokens "How does the document ingestion work?".
Proof.
  apply (estimate_tokens_reference "What is RAG?"
           "How does the document ingestion work?").
  simpl. lia.
Defined.

(** ** The packing loop *)

Section Packing.

Variable budget : Z.

Lemma pack_from_nil (st : string * Z) : pack_from budget st [] = st.
Proof. reflexivity. Qed.

Lemma pack_from_cons (st : string * Z) (doc : Document) (rest : list Document) :
  pack_from budget st (doc :: rest) = pack_from budget (pack_step budget st doc) rest.
Proof. reflexivity. Qed.

Lemma pack_from_app (st : string * Z) (docs more : list Document) :
  pack_from budget st (docs ++ more) = pack_from budget (pack_from budget st docs) more.
Proof. unfold pack_from. apply fold_left_app. Qed.

Lemma tokens_of_nonneg (docs : list Document) : 0 ≤ tokens_of docs.
Proof.
  induction docs as [|doc docs IH]; simpl; [lia|].
  pose proof (estimate_tokens_nonneg (page_content doc)). lia.
Qed.

Lemma tokens_of_app (docs more : list Document) :
  tokens_of (docs ++ more) = tokens_of docs + tokens_of more.
Proof. induction docs as [|doc docs IH]; simpl; lia. Qed.

Lemma text_length_app (docs more : list Document) :
  text_length (docs ++ more) = (text_length docs + text_length more)%nat.
Proof. induction docs as [|doc docs IH]; simpl; lia. Qed.

Lemma block_of_cons (doc : Document) (docs : list Document) :
  block_of (doc :: docs) = (page_content doc +:+ Str.blank_line) +:+ block_of docs.
Proof. reflexivity. Qed.

Lemma block_of_eq_nil (docs : list Document) :
  block_of docs = EmptyString ↔ docs = [].
Proof.
  split; [|by intros ->].
  destruct docs as [|doc docs]; [done|].
  rewrite block_of_cons. intros [H _]%StrFacts.app_eq_nil.
  apply StrFacts.app_eq_nil in H as [_ H]. discriminate.
Qed.

Lemma length_block_of (docs : list Document) :
  String.length (block_of docs) = (text_length docs + 2 * length docs)%nat.
Proof.
  induction docs as [|doc docs IH]; [done|].
  rewrite block_of_cons, !StrFacts.length_app, IH. simpl. lia.
Qed.

Lemma text_length_tokens_of (docs : list Document) :
  4 * tokens_of docs ≤ Z.of_nat (text_length docs)
    ≤ 4 * tokens_of docs + 3 * Z.of_nat (length docs).
Proof.
  induction docs as [|doc docs IH]; simpl; [lia|].
  pose proof (estimate_tokens_bounds (page_content doc)). lia.
Qed.

(** The loop computes the concatenation and the sum over [included]. *)
Lemma pack_from_included (docs : list Document) (knowledge : string) (total : Z) :
  pack_from budget (knowledge, total) docs =
    (knowledge +:+ block_of (included budget total docs),
     total + tokens_of (included budget total docs)).
Proof.
  revert knowledge total.
  induction docs as [|doc docs IH]; intros knowledge total.
  - simpl. by rewrite StrFacts.app_nil_r, Z.add_0_r.
  - rewrite pack_from_cons. simpl.
    destruct (total + estimate_tokens (page_content doc) <=? budget).
    + rewrite IH, block_of_cons, !StrFacts.app_assoc. simpl. f_equal. lia.
    + apply IH.
Qed.

Lemma pack_loop_included (docs : list Document) :
  pack_loop docs budget =
    (block_of (included budget 0 docs), tokens_of (included budget 0 docs)).
Proof. unfold pack_loop. by rewrite pack_from_included. Qed.

Lemma included_sublist (docs : list Document) (total : Z) :
  sublist (included budget total docs) docs.
Proof.
  revert total. induction docs as [|doc docs IH]; intros total; simpl.
  - constructor.
  - destruct (_ <=? _); by constructor.
Qed.

(** The running total stays under the budget once it is under it. *)
Lemma included_within_budget (docs : list Document) (total : Z) :
  total ≤ budget → total + tokens_of (included budget total docs) ≤ budget.
Proof.
  revert total. induction docs as [|doc docs IH]; intros total Htotal; simpl.
  - lia.
  - destruct (Z.leb_spec (total + estimate_tokens (page_content doc)) budget) as [Hfit|Hno].
    + simpl. specialize (IH _ Hfit). lia.
    + by apply IH.
Qed.

(** When everything that is left fits, everything is taken. *)
Lemma included_all (docs : list Document) (total : Z) :
  total + tokens_of docs ≤ budget → included budget total docs = docs.
Proof.
  revert total. induction docs as [|doc docs IH]; intros total Hfit; [done|].
  simpl in *. pose proof (tokens_of_nonneg docs).
  destruct (Z.leb_spec (total + estimate_tokens (page_content doc)) budget); [|lia].
  f_equal. apply IH. lia.
Qed.

(** Nothing is taken when no passage fits on top of the starting total. *)
Lemma included_none (docs : list Document) (total : Z) :
  included budget total docs = [] ↔
  Forall (λ doc, budget < total + estimate_tokens (page_content doc)) docs.
Proof.
  induction docs as [|doc docs IH]; simpl.
  - split; [constructor|done].
  - destruct (Z.leb_spec (total + estimate_tokens (page_content doc)) budget).
    + split; [done|]. inversion 1; lia.
    + rewrite IH. split; [by constructor|]. by inversion 1.
Qed.

End Packing.

Lemma tokens_of_rev (docs : list Document) : tokens_of (rev docs) = tokens_of docs.
Proof.
  induction docs as [|doc docs IH]; [done|].
  simpl. rewrite tokens_of_app, IH. simpl. lia.
Qed.

Lemma text_length_rev (docs : list Document) :
  text_length (rev docs) = text_length docs.
Proof.
  induction docs as [|doc docs IH]; [done|].
  simpl. rewrite text_length_app, IH. simpl. lia.
Qed.

Lemma block_of_ends_with (docs : list Document) :
  docs = [] ∨ Str.ends_with Str.blank_line (block_of docs).
Proof.
  induction docs as [|doc docs IH]; [by left|right].
  rewrite block_of_cons. destruct IH as [->|IH].
  - exists (page_content doc). change (block_of []) with EmptyString.
    by rewrite StrFacts.app_nil_r.
  - by apply StrFacts.ends_with_app.
Qed.

(** C1, the claim as stated fails: with budget [0] the three-character passage
    costs [0] tokens and is taken, and the block ["abc\n\n"] it leaves has five
    characters, an estimate of [1]. *)
Lemma block_estimate_over_budget :
  0 ≤ 0 ∧
  knowledge_block [ {| page_content := "abc" |} ] 0 = "abc" +:+ Str.blank_line ∧
  ¬ (estimate_tokens (knowledge_block [ {| page_content := "abc" |} ] 0) ≤ 0).
Proof. split_and!; [lia|reflexivity|]. vm_compute. by intros H; apply H. Qed.

(** C1, amended: for a budget [B ≥ 0] the running total the loop keeps, which is
    the sum of the estimates of the included passages taken one by one, never
    exceeds [B]; the estimate of the concatenated block, which also counts the
    separators and the characters the per-passage divisions drop, exceeds that
    total by at most [5k/4] for [k] included passages. *)
Theorem running_total_within_budget (docs : list Document) (B : Z) (HB : 0 ≤ B) :
  snd (pack_loop docs B) = tokens_of (included B 0 docs) ∧
  snd (pack_loop docs B) ≤ B ∧
  estimate_tokens (knowledge_block docs B)
    ≤ snd (pack_loop docs B) + (5 * Z.of_nat (length (included B 0 docs))) `div` 4.
Proof.
  unfold knowledge_block. rewrite pack_loop_included. simpl.
  split_and!; [done|..].
  - pose proof (included_within_budget B docs 0 HB). lia.
  - set (sel := included B 0 docs).
    unfold estimate_tokens. rewrite length_block_of.
    pose proof (text_length_tokens_of sel) as [_ Hlen].
    rewrite <- (Z.div_add_l (tokens_of sel) 4) by lia.
    apply Z.div_le_mono; lia.
Qed.

Lemma running_total_within_budget_witness :
  snd (pack_loop [ {| page_content := "abc" |}; {| page_content := "retrieval" |} ] 2)
    = tokens_of (included 2 0 [ {| page_content := "abc" |}; {| page_content := "retrieval" |} ]) ∧
  snd (pack_loop [ {| page_content := "abc" |}; {| page_content := "retrieval" |} ] 2) ≤ 2 ∧
  estimate_tokens (knowledge_block [ {| page_content := "abc" |}; {| page_content := "retrieval" |} ] 2)
    ≤ snd (pack_loop [ {| page_content := "abc" |}; {| page_content := "retrieval" |} ] 2)
      + (5 * Z.of_nat (length (included 2 0 [ {| page_content := "abc" |}; {| page_content := "retrieval" |} ]))) `div` 4.
Proof.
  apply (running_total_within_budget
           [ {| page_content := "abc" |}; {| page_content := "retrieval" |} ] 2).
  lia.
Defined.

(** C10: the separator appended after every included passage is the
    two-character string of two line feeds (code 10).  The block is the
    concatenation of (text followed by these two characters) over the included
    passages, a selection of the input in input order; so a block is either
    empty or ends in the two line feeds, after the last passage too. *)
Theorem knowledge_block_separators (docs : list Document) (B : Z) :
  knowledge_block docs B
    = Str.join (map (λ doc, page_content doc +:+ String "010" (String "010" EmptyString))
                    (included B 0 docs)) ∧
  sublist (included B 0 docs) docs ∧
  (knowledge_block docs B = EmptyString ∨
   ∃ front, knowledge_block docs B = front +:+ String "010" (String "010" EmptyString)) ∧
  String "010" (String "010" EmptyString)
    = String (ascii_of_nat 10) (String (ascii_of_nat 10) EmptyString) ∧
  String.length (String "010" (String "010" EmptyString)) = 2%nat ∧
  (∀ doc, knowledge_block [doc] (estimate_tokens (page_content doc))
          = page_content doc +:+ String "010" (String "010" EmptyString)).
Proof.
  unfold knowledge_block. rewrite pack_loop_included. simpl.
  split_and!; [done|apply included_sublist| |done|done|].
  - destruct (block_of_ends_with (included B 0 docs)) as [->|H]; [by left|by right].
  - intros doc. unfold pack_loop, pack_from. simpl.
    rewrite Z.leb_refl. reflexivity.
Qed.

Lemma pack_prefix_step (docs : list Document) (B : Z) (i : nat) (doc : Document) :
  docs !! i = Some doc →
  pack_prefix docs B (S i) = pack_step B (pack_prefix docs B i) doc.
Proof.
  intros Hdoc. unfold pack_prefix, pack_loop.
  by rewrite (take_S_r _ _ _ Hdoc), pack_from_app.
Qed.

(** C2: the loop starts from the empty block and total [0], meets the passages
    in list order, and at each one either appends text and blank line and adds
    the cost (when total + cost ≤ budget) or leaves both variables alone and
    goes on; the passages of the block are a selection of the input in input
    order; and with estimates 500, 4000, 300 and budget 600 the block is the
    first passage's text alone. *)
Theorem packing_loop_first_fit (docs : list Document) (B : Z)
    (d1 d2 d3 : Document)
    (H1 : estimate_tokens (page_content d1) = 500)
    (H2 : estimate_tokens (page_content d2) = 4000)
    (H3 : estimate_tokens (page_content d3) = 300) :
  pack_prefix docs B 0 = (EmptyString, 0) ∧
  pack_prefix docs B (length docs) = pack_loop docs B ∧
  (∀ i doc, docs !! i = Some doc →
     let knowledge := fst (pack_prefix docs B i) in
     let total := snd (pack_prefix docs B i) in
     let cost := estimate_tokens (page_content doc) in
     (total + cost ≤ B →
        pack_prefix docs B (S i)
          = (knowledge +:+ (page_content doc +:+ Str.blank_line), total + cost)) ∧
     (B < total + cost →
        pack_prefix docs B (S i) = (knowledge, total))) ∧
  (∃ sel, sublist sel docs ∧ knowledge_block docs B = block_of sel) ∧
  knowledge_block [d1; d2; d3] 600 = page_content d1 +:+ Str.blank_line ∧
  included 600 0 [d1; d2; d3] = [d1].
Proof.
  split_and!.
  - reflexivity.
  - unfold pack_prefix. by rewrite firstn_all.
  - intros i doc Hdoc knowledge total cost.
    rewrite (pack_prefix_step _ _ _ _ Hdoc). unfold pack_step.
    subst knowledge total cost. destruct (pack_prefix docs B i) as [k t]. simpl.
    split; intros Hcmp.
    + by rewrite (proj2 (Z.leb_le _ _) Hcmp).
    + by rewrite (proj2 (Z.leb_gt _ _) Hcmp).
  - exists (included B 0 docs). split; [apply included_sublist|].
    unfold knowledge_block. by rewrite pack_loop_included.
  - unfold knowledge_block, pack_loop. simpl. unfold pack_step.
    rewrite H1. simpl. rewrite H2. simpl. by rewrite H3.
  - simpl. rewrite H1. simpl. rewrite H2. simpl. by rewrite H3.
Qed.

(** C3, the claim as stated fails: with budget [0] a passage shorter than four
    characters costs [0] tokens and is taken. *)
Lemma zero_budget_block_not_empty :
  [ {| page_content := "RAG" |} ] ≠ [] ∧ 0 ≤ 0 ∧
  knowledge_block [ {| page_content := "RAG" |} ] 0 = "RAG" +:+ Str.blank_line ∧
  knowledge_block [ {| page_content := "RAG" |} ] 0 ≠ EmptyString.
Proof. split_and!; [done|lia|reflexivity|discriminate]. Qed.

(** C3, amended: for a budget [B ≤ 0] the block is empty exactly when [B < 0]
    or every passage has at least four characters (an estimate of at least
    one); with budget [0] the passages of fewer than four characters are
    taken. *)
Theorem nonpositive_budget_block (docs : list Document) (B : Z) (HB : B ≤ 0) :
  knowledge_block docs B = EmptyString ↔
  (B < 0 ∨ Forall (λ doc, (4 ≤ String.length (page_content doc))%nat) docs).
Proof.
  unfold knowledge_block. rewrite pack_loop_included. simpl.
  rewrite block_of_eq_nil, included_none, !Forall_forall.
  split.
  - intros Hall. destruct (decide (B < 0)) as [|Hzero]; [by left|right].
    intros doc Hin. specialize (Hall doc Hin).
    pose proof (estimate_tokens_short (page_content doc)). lia.
  - intros [Hneg|Hall] doc Hin.
    + pose proof (estimate_tokens_nonneg (page_content doc)). lia.
    + specialize (Hall doc Hin).
      pose proof (estimate_tokens_short (page_content doc)).
      pose proof (estimate_tokens_nonneg (page_content doc)). lia.
Qed.

Lemma nonpositive_budget_block_witness :
  knowledge_block [ {| page_content := "RAG" |} ] (-1) = EmptyString ↔
  (-1 < 0 ∨ Forall (λ doc, (4 ≤ String.length (page_content doc))%nat)
              [ {| page_content := "RAG" |} ]).
Proof. apply (nonpositive_budget_block [ {| page_content := "RAG" |} ] (-1)). lia. Defined.

(** C7, the claim as stated fails: with budget [3], an 8-character passage
    (2 tokens) ahead of a 12-character one (3 tokens) leaves only the first
    included; in the reversed list the 12-character passage is met first, and
    more text and more tokens are included. *)
Lemma reversal_includes_more :
  0 ≤ 3 ∧
  included 3 0 [ {| page_content := "chunk 01" |}; {| page_content := "chunk number" |} ]
    = [ {| page_content := "chunk 01" |} ] ∧
  included 3 0 (rev [ {| page_content := "chunk 01" |}; {| page_content := "chunk number" |} ])
    = [ {| page_content := "chunk number" |} ] ∧
  snd (pack_loop [ {| page_content := "chunk 01" |}; {| page_content := "chunk number" |} ] 3)
    < snd (pack_loop (rev [ {| page_content := "chunk 01" |}; {| page_content := "chunk number" |} ]) 3) ∧
  (String.length (knowledge_block [ {| page_content := "chunk 01" |}; {| page_content := "chunk number" |} ] 3)
    < String.length (knowledge_block (rev [ {| page_content := "chunk 01" |}; {| page_content := "chunk number" |} ]) 3))%nat ∧
  ¬ (text_length (included 3 0 (rev [ {| page_content := "chunk 01" |}; {| page_content := "chunk number" |} ]))
      ≤ text_length (included 3 0 [ {| page_content := "chunk 01" |}; {| page_content := "chunk number" |} ]))%nat.
Proof. vm_compute. split_and!; try done; lia. Qed.

(** C7, amended: reversing the list can change which passages are included,
    and the reversed order can end with more tokens and text than the given
    one as well as with less.  In either order the running total stays within
    a budget [B ≥ 0].  When the estimates of all passages together fit the
    budget, the loop takes every passage in both orders: the block is every
    text followed by the two line feeds, in list order respectively in
    reversed order, the totals are the same and the blocks have the same
    length. *)
Theorem reversal_totals (docs : list Document) (B : Z) (HB : 0 ≤ B) :
  snd (pack_loop (rev docs) B) ≤ B ∧
  snd (pack_loop docs B) ≤ B ∧
  (tokens_of docs ≤ B →
     pack_loop docs B
       = (Str.join (map (λ doc, page_content doc +:+ String "010" (String "010" EmptyString))
                        docs),
          tokens_of docs) ∧
     pack_loop (rev docs) B
       = (Str.join (map (λ doc, page_content doc +:+ String "010" (String "010" EmptyString))
                        (rev docs)),
          tokens_of docs) ∧
     String.length (knowledge_block (rev docs) B)
       = String.length (knowledge_block docs B) ∧
     String.length (knowledge_block docs B)
       = (text_length docs + 2 * length docs)%nat) ∧
  (∃ P B', 0 ≤ B' ∧
     snd (pack_loop P B') < snd (pack_loop (rev P) B') ∧
     (String.length (knowledge_block P B')
        < String.length (knowledge_block (rev P) B'))%nat) ∧
  (∃ P B', 0 ≤ B' ∧
     snd (pack_loop (rev P) B') < snd (pack_loop P B') ∧
     (String.length (knowledge_block (rev P) B')
        < String.length (knowledge_block P B'))%nat).
Proof.
  split_and!.
  - rewrite pack_loop_included. simpl.
    pose proof (included_within_budget B (rev docs) 0 HB). lia.
  - rewrite pack_loop_included. simpl.
    pose proof (included_within_budget B docs 0 HB). lia.
  - intros Hfit. unfold knowledge_block. rewrite !pack_loop_included.
    assert (included B 0 (rev docs) = rev docs) as ->
      by (apply included_all; rewrite tokens_of_rev; lia).
    assert (included B 0 docs = docs) as -> by (apply included_all; lia).
    rewrite tokens_of_rev. simpl.
    rewrite !length_block_of, text_length_rev, length_rev. by split_and!.
  - exists [ {| page_content := "chunk 01" |}; {| page_content := "chunk number" |} ], 3.
    vm_compute. split_and!; try done; lia.
  - exists [ {| page_content := "chunk number" |}; {| page_content := "chunk 01" |} ], 3.
    vm_compute. split_and!; try done; lia.
Qed.

Lemma packing_loop_first_fit_witness :
  knowledge_block [doc_500; doc_4000; doc_300] 600
    = page_content doc_500 +:+ Str.blank_line ∧
  included 600 0 [doc_500; doc_4000; doc_300] = [doc_500].
Proof.
  pose proof (packing_loop_first_fit [doc_500; doc_4000; doc_300] 600
                doc_500 doc_4000 doc_300) as H.
  destruct H as (_ & _ & _ & _ & Hblock & Hsel);
    [vm_compute; reflexivity..|].
  exact (conj Hblock Hsel).
Defined.

Lemma reversal_totals_witness :
  pack_loop (rev [ {| page_content := "chunk 01" |}; {| page_content := "chunk number" |} ]) 5
    = ("chunk number" +:+ String "010" (String "010" EmptyString)
       +:+ "chunk 01" +:+ String "010" (String "010" EmptyString), 5) ∧
  String.length
    (knowledge_block (rev [ {| page_content := "chunk 01" |}; {| page_content := "chunk number" |} ]) 5)
    = String.length
        (knowledge_block [ {| page_content := "chunk 01" |}; {| page_content := "chunk number" |} ] 5).
Proof.
  pose proof (reversal_totals
                [ {| page_content := "chunk 01" |}; {| page_content := "chunk number" |} ] 5)
    as H.
  destruct H as (_ & _ & H & _); [lia|].
  destruct H as (_ & Hrev & Hlen & _); [vm_compute; discriminate|].
  exact (conj Hrev Hlen).
Defined.

(** ** The budget *)

Lemma length_user_prompt_template (message : string) :
  String.length (user_prompt_template message) = (23 + String.length message)%nat.
Proof.
  unfold user_prompt_template. rewrite !StrFacts.length_app. simpl. lia.
Qed.

(** C8, the claim as stated fails: the overhead subtracted from the limit
    contains the estimate of the user prompt with the question in it, so two
    questions of different length get different budgets and no fixed overhead
    fits both. *)
Lemma prompt_overhead_not_fixed :
  max_knowledge_tokens EmptyString = 12981 ∧
  max_knowledge_tokens "What is RAG?" = 12978 ∧
  ¬ ∃ overhead : Z,
      ∀ message, max_knowledge_tokens message = MAX_TOKENS - overhead - 1000.
Proof.
  split_and!; [reflexivity..|].
  intros [overhead H].
  pose proof (H EmptyString) as H0. pose proof (H "What is RAG?") as H1.
  vm_compute in H0, H1. lia.
Qed.

(** C8, amended: the budget is the context limit minus the prompt overhead
    minus the 1000 tokens reserved for the response, where the overhead is the
    estimate of the system prompt (14) plus the estimate of the user prompt
    template with the question inserted, [(23 + len(question)) // 4]; it
    depends on the question through its length only. *)
Theorem budget_derivation (message other : string)
    (Hlen : String.length other = String.length message) :
  max_knowledge_tokens message
    = MAX_TOKENS
      - (estimate_tokens system_prompt + estimate_tokens (user_prompt_template message))
      - 1000 ∧
  max_knowledge_tokens message
    = 14000 - (14 + (23 + Z.of_nat (String.length message)) `div` 4) - 1000 ∧
  max_knowledge_tokens other = max_knowledge_tokens message.
Proof.
  assert (∀ m, max_knowledge_tokens m
               = 14000 - (14 + (23 + Z.of_nat (String.length m)) `div` 4) - 1000) as Hclosed.
  { intros m. unfold max_knowledge_tokens, base_tokens, MAX_TOKENS.
    unfold estimate_tokens at 2. rewrite length_user_prompt_template.
    rewrite Nat2Z.inj_add. reflexivity. }
  split_and!; [reflexivity|apply Hclosed|].
  by rewrite !Hclosed, Hlen.
Qed.

Lemma budget_derivation_witness :
  max_knowledge_tokens "What is RAG?"
    = 14000 - (14 + (23 + Z.of_nat (String.length "What is RAG?")) `div` 4) - 1000 ∧
  max_knowledge_tokens "Who is Ada?!" = max_knowledge_tokens "What is RAG?".
Proof.
  pose proof (budget_derivation "What is RAG?" "Who is Ada?!") as H.
  destruct H as (_ & Hclosed & Hsame); [reflexivity|].
  exact (conj Hclosed Hsame).
Defined.

(** ** The reply classification and the [except] boundary *)

Section Respond.

Variable w : World.

(** The classification prints nothing: it leaves standard output alone. *)
Lemma classify_out (response_json : value) (out : list string) :
  classify w response_json out = (out, snd (classify w response_json [])).
Proof.
  unfold classify, Py.bind, lift, ret.
  repeat match goal with
         | |- context [match ?r with Return _ => _ | Raise _ => _ | RaiseBase _ => _ end] =>
             destruct r
         | |- context [if ?b then _ else _] => destruct b
         end; reflexivity.
Qed.

(** The handler returns the error string. *)
Lemma respond_except_out (e : exn) (out : list string) :
  respond_except w e out
    = (out ++ ["Error details: " +:+ format_exc w e],
       Return (VStr ("Error: " +:+ exn_str w e))).
Proof. reflexivity. Qed.

(** [respond] according to what its [try] body does. *)
Lemma respond_caught (message : string) (history : value) (out out' : list string) (e : exn) :
  respond_try w message history out = (out', Raise e) →
  snd (respond w message history out) = Return (VStr ("Error: " +:+ exn_str w e)).
Proof. intros H. unfold respond, try_except. by rewrite H. Qed.

Lemma respond_returned (message : string) (history : value) (out out' : list string) (v : value) :
  respond_try w message history out = (out', Return v) →
  snd (respond w message history out) = Return v.
Proof. intros H. unfold respond, try_except. by rewrite H. Qed.

Lemma respond_escaped (message : string) (history : value) (out out' : list string)
    (b : base_exn) :
  respond_try w message history out = (out', RaiseBase b) →
  respond w message history out = (out', RaiseBase b).
Proof. intros H. unfold respond, try_except. by rewrite H. Qed.





(** The [try] body once retrieval, the HTTP call and the decoding went well. *)
Lemma respond_try_decoded (message : string) (history : value) (out : list string)
    (docs : list Document) (response : Response) (response_json : value) :
  retriever_invoke w message = Return docs →
  requests_post w URL (headers w)
    (data w message (knowledge_block docs (max_knowledge_tokens message)))
    = Return response →
  json response = Return response_json →
  snd (respond_try w message history out) = snd (classify w response_json []).
Proof.
  intros Hdocs Hpost Hjson. unfold respond_try, Py.bind, lift, print.
  rewrite Hdocs. unfold knowledge_block in Hpost.
  destruct (pack_loop docs (max_knowledge_tokens message)) as [knowledge total].
  simpl in Hpost. rewrite Hpost, Hjson. by rewrite classify_out.
Qed.

Lemma respond_decoded (message : string) (history : value) (out : list string)
    (docs : list Document) (response : Response) (response_json : value) :
  retriever_invoke w message = Return docs →
  requests_post w URL (headers w)
    (data w message (knowledge_block docs (max_knowledge_tokens message)))
    = Return response →
  json response = Return response_json →
  snd (respond w message history out) =
    match snd (classify w response_json []) with
    | Return v => Return v
    | Raise e => Return (VStr ("Error: " +:+ exn_str w e))
    | RaiseBase b => RaiseBase b
    end.
Proof.
  intros Hdocs Hpost Hjson.
  pose proof (respond_try_decoded message history out _ _ _ Hdocs Hpost Hjson) as Htry.
  destruct (respond_try w message history out) as [out' r] eqn:Hrun.
  simpl in Htry. rewrite <- Htry. destruct r.
  - by apply respond_returned with out'.
  - by apply respond_caught with out'.
  - by rewrite (respond_escaped _ _ _ _ _ Hrun).
Qed.

(** What was printed before the call does not matter for what is returned. *)
Lemma respond_result_out (message : string) (history : value) (out : list string) :
  snd (respond w message history out) = respond_result w message history.
Proof.
  unfold respond_result, respond, try_except, respond_try, Py.bind, lift, print.
  destruct (retriever_invoke w message) as [docs|e|b]; [|reflexivity..].
  destruct (pack_loop docs (max_knowledge_tokens message)) as [knowledge total].
  destruct (requests_post w URL (headers w) (data w message knowledge))
    as [response|e|b]; [|reflexivity..].
  destruct (json response) as [response_json|e|b]; [|reflexivity..].
  rewrite (classify_out response_json (out ++ _)), (classify_out response_json ([] ++ _)).
  by destruct (snd (classify w response_json [])).
Qed.

End Respond.

Section Classification.

Variable w : World.

Ltac run_classify :=
  unfold classify, Py.bind, lift, ret, contains, getitem, len; simpl.

(** An object with an ["error"] member that is an object with a ["message"]
    member is an API error, whatever else the body holds. *)
Lemma classify_error (body err : gmap string value) (msg : value) :
  body !! "error" = Some (VDict err) →
  err !! "message" = Some msg →
  snd (classify w (VDict body) []) = Return (VStr ("API Error: " +:+ format w msg)).
Proof.
  intros Herr Hmsg. run_classify.
  rewrite bool_decide_eq_true_2 by (rewrite Herr; eauto).
  by rewrite Herr, Hmsg.
Qed.

(** The shapes the three guards of lines 94-95 reject: no ["choices"] member,
    an empty list of choices, a first choice that is an object without a
    ["message"] member. *)
Lemma classify_guarded (body : gmap string value) :
  body !! "error" = None →
  body !! "choices" = None ∨
  body !! "choices" = Some (VList []) ∨
  (∃ first rest, body !! "choices" = Some (VList (VDict first :: rest)) ∧
                 first !! "message" = None) →
  snd (classify w (VDict body) []) = Return (VStr could_not_parse).
Proof.
  intros Hnoerr Hshape. run_classify.
  rewrite bool_decide_eq_false_2 by (rewrite Hnoerr; by intros [? ?]).
  destruct Hshape as [Hc|[Hc|(first & rest & Hc & Hm)]].
  - by rewrite bool_decide_eq_false_2 by (rewrite Hc; by intros [? ?]).
  - rewrite bool_decide_eq_true_2 by (rewrite Hc; eauto). by rewrite Hc.
  - rewrite bool_decide_eq_true_2 by (rewrite Hc; eauto). rewrite Hc. simpl.
    by rewrite bool_decide_eq_false_2 by (rewrite Hm; by intros [? ?]).
Qed.


End Classification.

(** C4: when the decoded body is an object whose ["error"] member is an object
    with a ["message"] member, [respond] returns ["API Error: "] followed by
    that message (verbatim when it is a string), whatever else the body
    contains, a well-formed ["choices"] list included; the result is neither
    the answer of the success branch nor the could-not-parse string. *)
Theorem api_error_takes_priority (w : World) (message : string) (history : value)
    (docs : list Document) (response : Response)
    (body err : gmap string value) (msg : value)
    (Hdocs : retriever_invoke w message = Return docs)
    (Hpost : requests_post w URL (headers w)
               (data w message (knowledge_block docs (max_knowledge_tokens message)))
             = Return response)
    (Hjson : json response = Return (VDict body))
    (Herr : body !! "error" = Some (VDict err))
    (Hmsg : err !! "message" = Some msg) :
  respond_result w message history
    = Return (VStr ("API Error: " +:+ format w msg)) ∧
  (∀ text, msg = VStr text →
     respond_result w message history = Return (VStr ("API Error: " +:+ text))) ∧
  respond_result w message history ≠ Return (VStr could_not_parse).
Proof.
  assert (respond_result w message history
          = Return (VStr ("API Error: " +:+ format w msg))) as Hres.
  { unfold respond_result.
    rewrite (respond_decoded w message history [] _ _ _ Hdocs Hpost Hjson).
    by rewrite (classify_error w body err msg Herr Hmsg). }
  split_and!; [done|by intros text ->|].
  rewrite Hres. discriminate.
Qed.

Lemma api_error_takes_priority_witness :
  respond_result (world_replying [doc_300] (Return body_error_and_choices))
    "What is RAG?" (VList [])
  = Return (VStr "API Error: insufficient_quota").
Proof.
  pose proof (api_error_takes_priority
                (world_replying [doc_300] (Return body_error_and_choices))
                "What is RAG?" (VList []) [doc_300]
                {| status_code := 200; json := Return body_error_and_choices |}
                {[ "error" := VDict {[ "message" := VStr "insufficient_quota" ]};
                   "choices" := VList [ VDict {[ "message" :=
                                   VDict {[ "content" := VStr "RAG is ..." ]} ]} ] ]}
                {[ "message" := VStr "insufficient_quota" ]}
                (VStr "insufficient_quota")) as H.
  destruct H as (H & _ & _); [reflexivity..|].
  exact H.
Defined.

(** The scenario of the specification: a body that is only the quota error. *)
Example quota_error_reported :
  respond_result (world_replying [] (Return body_quota)) "What is RAG?" (VList [])
  = Return (VStr "API Error: insufficient_quota").
Proof. reflexivity. Qed.

(** The scenario of the specification: an empty list of choices. *)
Example empty_choices_reported :
  respond_result (world_replying [] (Return body_no_choices)) "What is RAG?" (VList [])
  = Return (VStr "Could not parse API response properly.").
Proof. reflexivity. Qed.

(** The scenario of the specification: the network call raises. *)
Example connection_error_reported :
  respond_result
    (world_offline [] (Raised "ConnectionError" "Max retries exceeded"))
    "What is RAG?" (VList [])
  = Return (VStr "Error: Max retries exceeded").
Proof. reflexivity. Qed.

(** Other decoded bodies that get past the guards, or never reach them, and
    end in the handler: a bare number, a [null] list of choices, a first
    choice that is a number. *)
Example unguarded_shapes_reported_as_errors :
  respond_result (world_replying [] (Return (VInt 5))) "What is RAG?" (VList [])
    = Return (VStr "Error: <str(e)>") ∧
  respond_result (world_replying [] (Return (VDict {[ "choices" := VNone ]})))
    "What is RAG?" (VList [])
    = Return (VStr "Error: <str(e)>") ∧
  respond_result (world_replying [] (Return (VDict {[ "choices" := VList [VInt 5] ]})))
    "What is RAG?" (VList [])
    = Return (VStr "Error: <str(e)>").
Proof. by split_and!. Qed.

(** C5, the code at the failing input: a body whose first choice has a
    ["message"] object without a ["content"] member passes the three guards,
    the subscript raises [KeyError], and what comes back is the handler's
    ["Error: ..."] string, not the could-not-parse string. *)
Theorem missing_content_reported_as_error
    (api_key : option string) (model : string) (docs : list Document)
    (status : Z) (repr_of : value → string) (str_of traceback_of : exn → string)
    (message : string) (history : value) :
  let w := {| OPENROUTER_API_KEY := api_key;
              MODEL_NAME := model;
              retriever_invoke := λ _, Return docs;
              requests_post := λ _ _ _,
                Return {| status_code := status; json := Return body_no_content |};
              repr := repr_of;
              exn_str := str_of;
              format_exc := traceback_of |} in
  snd (classify w body_no_content []) = Raise (KeyError (KStr "content")) ∧
  respond_result w message history
    = Return (VStr ("Error: " +:+ str_of (KeyError (KStr "content")))) ∧
  respond_result w message history ≠ Return (VStr could_not_parse).
Proof.
  intros w.
  assert (snd (classify w body_no_content []) = Raise (KeyError (KStr "content")))
    as Hraise by reflexivity.
  assert (respond_result w message history
          = Return (VStr ("Error: " +:+ str_of (KeyError (KStr "content"))))) as Hres.
  { unfold respond_result.
    rewrite (respond_decoded w message history [] docs
               {| status_code := status; json := Return body_no_content |}
               body_no_content) by reflexivity.
    by rewrite Hraise. }
  split_and!; [done..|].
  rewrite Hres. discriminate.
Qed.

Section Boundary.

Variable w : World.
Variables (message : string) (history : value) (out : list string).








End Boundary.



(** * Further properties of the code *)

(** ** The estimator and the packing loop *)

Lemma estimate_of_concatenation (s t : string) :
  estimate_tokens s + estimate_tokens t ≤ estimate_tokens (s +:+ t)
    ≤ estimate_tokens s + estimate_tokens t + 1.
Proof.
  unfold estimate_tokens. rewrite StrFacts.length_app, Nat2Z.inj_add.
  Z.div_mod_to_equations. lia.
Qed.

(** X1: the estimate of a concatenation is the sum of the two estimates or
    one more: estimating piece by piece never overshoots, and undershoots by
    at most one token per join. *)
Theorem estimate_tokens_app (s t : string) :
  estimate_tokens s + estimate_tokens t ≤ estimate_tokens (s +:+ t)
    ≤ estimate_tokens s + estimate_tokens t + 1.
Proof. apply estimate_of_concatenation. Qed.

Section Greedy.

Variable budget : Z.

Lemma included_tokens_capped (docs : list Document) (total : Z) :
  total + tokens_of (included budget total docs) ≤ Z.max total budget.
Proof.
  revert total. induction docs as [|doc docs IH]; intros total; simpl; [lia|].
  destruct (Z.leb_spec (total + estimate_tokens (page_content doc)) budget) as [Hfit|Hno].
  - simpl. specialize (IH (total + estimate_tokens (page_content doc))). lia.
  - apply IH.
Qed.

Lemma included_app (docs more : list Document) (total : Z) :
  included budget total (docs ++ more)
    = included budget total docs
      ++ included budget (total + tokens_of (included budget total docs)) more.
Proof.
  revert total. induction docs as [|doc docs IH]; intros total; simpl.
  - by rewrite Z.add_0_r.
  - destruct (_ <=? _); simpl; rewrite IH; [|done].
    do 3 f_equal. lia.
Qed.

Lemma skipped_do_not_fit (docs : list Document) (total : Z) :
  Forall (λ doc, budget < total + tokens_of (included budget total docs)
                          + estimate_tokens (page_content doc))
         (skipped budget total docs).
Proof.
  revert total. induction docs as [|doc docs IH]; intros total; simpl.
  - constructor.
  - destruct (Z.leb_spec (total + estimate_tokens (page_content doc)) budget).
    + simpl. eapply Forall_impl; [apply IH|]. simpl. intros d Hd. lia.
    + constructor; [|apply IH].
      pose proof (tokens_of_nonneg (included budget total docs)). lia.
Qed.

Lemma included_skipped_perm (docs : list Document) (total : Z) :
  docs ≡ₚ included budget total docs ++ skipped budget total docs.
Proof.
  revert total. induction docs as [|doc docs IH]; intros total; simpl; [done|].
  destruct (_ <=? _); simpl.
  - by rewrite <- IH.
  - by rewrite <- Permutation_middle, <- IH.
Qed.

End Greedy.

Lemma included_tokens_mono (small large : Z) (docs : list Document) (total : Z) :
  small ≤ large →
  tokens_of (included small total docs) ≤ tokens_of (included large total docs).
Proof.
  intros Hle. revert total.
  induction docs as [|doc docs IH]; intros total; simpl; [lia|].
  pose proof (estimate_tokens_nonneg (page_content doc)).
  destruct (Z.leb_spec (total + estimate_tokens (page_content doc)) small),
           (Z.leb_spec (total + estimate_tokens (page_content doc)) large);
    simpl; try lia.
  - specialize (IH (total + estimate_tokens (page_content doc))). lia.
  - pose proof (included_tokens_capped small docs total).
    pose proof (tokens_of_nonneg (included small total docs)).
    pose proof (tokens_of_nonneg
                  (included large (total + estimate_tokens (page_content doc)) docs)).
    lia.
  - apply IH.
Qed.

(** X2: a larger budget never lowers the running total the loop ends with
    (the included passages may differ, their token total does not shrink). *)
Theorem larger_budget_no_fewer_tokens (docs : list Document) (small large : Z)
    (Hle : small ≤ large) :
  snd (pack_loop docs small) ≤ snd (pack_loop docs large).
Proof. rewrite !pack_loop_included. simpl. by apply included_tokens_mono. Qed.

Lemma larger_budget_no_fewer_tokens_witness :
  snd (pack_loop [doc_500; doc_4000; doc_300] 600)
    ≤ snd (pack_loop [doc_500; doc_4000; doc_300] 900).
Proof. apply (larger_budget_no_fewer_tokens [doc_500; doc_4000; doc_300] 600 900). lia. Defined.

(** X3: the result is maximal for the running total: the passages are split
    into the included and the skipped ones, and no skipped passage would fit
    on top of the total the loop ends with. *)
Theorem skipped_passages_do_not_fit (docs : list Document) (B : Z) :
  docs ≡ₚ included B 0 docs ++ skipped B 0 docs ∧
  Forall (λ doc, B < snd (pack_loop docs B) + estimate_tokens (page_content doc))
         (skipped B 0 docs).
Proof.
  split; [apply included_skipped_perm|].
  rewrite pack_loop_included. simpl. apply (skipped_do_not_fit B docs 0).
Qed.

(** X4: packing is idempotent: running the loop again over the passages it
    included, with the same or a larger budget, includes all of them and
    rebuilds the same block and total. *)
Theorem repacking_included (docs : list Document) (B B' : Z) (Hle : B ≤ B') :
  included B' 0 (included B 0 docs) = included B 0 docs ∧
  pack_loop (included B 0 docs) B' = pack_loop docs B.
Proof.
  assert (included B' 0 (included B 0 docs) = included B 0 docs) as Hsame.
  { destruct (decide (0 ≤ B)) as [Hpos|Hneg].
    - apply included_all. pose proof (included_within_budget B docs 0 Hpos). lia.
    - assert (included B 0 docs = []) as ->; [|done].
      apply included_none, Forall_forall. intros doc _.
      pose proof (estimate_tokens_nonneg (page_content doc)). lia. }
  split; [done|]. by rewrite !pack_loop_included, Hsame.
Qed.

Lemma repacking_included_witness :
  included 900 0 (included 600 0 [doc_500; doc_4000; doc_300])
    = included 600 0 [doc_500; doc_4000; doc_300] ∧
  pack_loop (included 600 0 [doc_500; doc_4000; doc_300]) 900
    = pack_loop [doc_500; doc_4000; doc_300] 600.
Proof. apply (repacking_included [doc_500; doc_4000; doc_300] 600 900). lia. Defined.






(** X6: appending candidates to the list (a larger retrieval fan-out) keeps
    what was packed: the block for the longer list starts with the block for
    the shorter one, and the running total does not decrease. *)
Theorem more_candidates_extend_block (docs more : list Document) (B : Z) :
  knowledge_block (docs ++ more) B
    = knowledge_block docs B
      +:+ block_of (included B (snd (pack_loop docs B)) more) ∧
  snd (pack_loop docs B) ≤ snd (pack_loop (docs ++ more) B).
Proof.
  unfold knowledge_block. rewrite !pack_loop_included. simpl.
  rewrite included_app, Z.add_0_l. split.
  - unfold block_of. by rewrite map_app, StrFacts.join_app.
  - rewrite tokens_of_app.
    pose proof (tokens_of_nonneg (included B (tokens_of (included B 0 docs)) more)).
    lia.
Qed.

(** ** The budget and the assembled prompt *)

Lemma max_knowledge_tokens_closed (message : string) :
  max_knowledge_tokens message
    = 12986 - (23 + Z.of_nat (String.length message)) `div` 4.
Proof.
  unfold max_knowledge_tokens, base_tokens, MAX_TOKENS.
  unfold estimate_tokens at 2. rewrite length_user_prompt_template, Nat2Z.inj_add.
  change (estimate_tokens system_prompt) with 14. change (Z.of_nat 23) with 23. lia.
Qed.

(** X7: a question of 51925 characters or more drives the budget below zero,
    and then nothing that was retrieved reaches the prompt: the loop ends with
    the empty block and total [0].  Shorter questions have a budget of at
    least [0], and no question has a budget above 12981. *)
Theorem long_question_no_knowledge (message : string) (docs : list Document)
    (Hlong : 51925 ≤ Z.of_nat (String.length message)) :
  max_knowledge_tokens message < 0 ∧
  pack_loop docs (max_knowledge_tokens message) = (EmptyString, 0) ∧
  (∀ shorter, Z.of_nat (String.length shorter) < 51925 →
              0 ≤ max_knowledge_tokens shorter ≤ 12981).
Proof.
  assert (max_knowledge_tokens message < 0) as Hneg.
  { rewrite max_knowledge_tokens_closed. Z.div_mod_to_equations. lia. }
  split_and!; [done| |].
  - rewrite pack_loop_included.
    assert (included (max_knowledge_tokens message) 0 docs = []) as ->; [|done].
    apply included_none, Forall_forall. intros doc _.
    pose proof (estimate_tokens_nonneg (page_content doc)). lia.
  - intros shorter Hshort. rewrite max_knowledge_tokens_closed.
    Z.div_mod_to_equations. lia.
Qed.

Lemma long_question_no_knowledge_witness :
  max_knowledge_tokens long_question < 0 ∧
  pack_loop [doc_300] (max_knowledge_tokens long_question) = (EmptyString, 0).
Proof.
  pose proof (long_question_no_knowledge long_question [doc_300]) as H.
  destruct H as (Hneg & Hempty & _); [vm_compute; discriminate|].
  exact (conj Hneg Hempty).
Defined.



(** ** The reply handling *)

Lemma contains_list_elem (needle : string) (l : list value) :
  (VStr needle ∈ l → contains needle (VList l) = Return true) ∧
  (VStr needle ∉ l → contains needle (VList l) = Return false).
Proof.
  unfold contains. induction l as [|x l [IHin IHout]]; simpl.
  - split; [by intros ?%elem_of_nil|done].
  - split.
    + intros [<-|Hin]%elem_of_cons.
      * by rewrite bool_decide_eq_true_2.
      * specialize (IHin Hin). injection IHin as ->. by rewrite orb_true_r.
    + intros Hout. apply not_elem_of_cons in Hout as [Hne Hout].
      specialize (IHout Hout). injection IHout as ->. rewrite orb_false_r.
      destruct x; try done. f_equal. apply bool_decide_eq_false_2. congruence.
Qed.


Section Replies.

Variables (w : World) (message : string) (history : value).
Variables (docs : list Document) (response : Response).
Hypothesis Hdocs : retriever_invoke w message = Return docs.
Hypothesis Hpost :
  requests_post w URL (headers w)
    (data w message (knowledge_block docs (max_knowledge_tokens message)))
  = Return response.

Lemma respond_classified (response_json : value) :
  json response = Return response_json →
  respond_result w message history =
    match snd (classify w response_json []) with
    | Return v => Return v
    | Raise e => Return (VStr ("Error: " +:+ exn_str w e))
    | RaiseBase b => RaiseBase b
    end.
Proof. intros Hjson. unfold respond_result. by apply respond_decoded with docs response. Qed.

Lemma respond_first_message (body first : gmap string value) (rest : list value)
    (msg : value) :
  json response = Return (VDict body) →
  body !! "error" = None →
  body !! "choices" = Some (VList (VDict first :: rest)) →
  first !! "message" = Some msg →
  respond_result w message history =
    match msg with
    | VDict fields =>
        match fields !! "content" with
        | Some answer => Return answer
        | None => Return (VStr ("Error: " +:+ exn_str w (KeyError (KStr "content"))))
        end
    | _ => Return (VStr ("Error: "
                         +:+ exn_str w (TypeError (OpSubscript (KStr "content")) msg)))
    end.
Proof.
  intros Hjson Hnoerr Hchoices Hmsg.
  rewrite (respond_classified _ Hjson).
  unfold classify, Py.bind, lift, ret, contains, getitem, len. simpl.
  rewrite bool_decide_eq_false_2 by (rewrite Hnoerr; by intros [? ?]).
  rewrite bool_decide_eq_true_2 by (rewrite Hchoices; eauto).
  rewrite Hchoices. simpl.
  rewrite bool_decide_eq_true_2 by (rewrite Hmsg; eauto).
  rewrite Hmsg. destruct msg as [| | | | | |fields]; try reflexivity.
  by destruct (fields !! "content").
Qed.

Lemma single_char_lacks_message (c : ascii) :
  Str.contains "message" (String c EmptyString) = false.
Proof. by destruct c as [[] [] [] [] [] [] [] []]. Qed.

Lemma first_character (c : ascii) (s : string) :
  getitem (VStr (String c s)) (KInt 0) = Return (VStr (String c EmptyString)).
Proof. reflexivity. Qed.

Lemma respond_choices_not_list (body : gmap string value) (choices : value) :
  json response = Return (VDict body) →
  body !! "error" = None →
  body !! "choices" = Some choices →
  (∀ l, choices ≠ VList l) →
  respond_result w message history =
    Return (VStr
      match choices with
      | VStr _ => could_not_parse
      | VDict members =>
          if decide (members = ∅) then could_not_parse
          else "Error: " +:+ exn_str w (KeyError (KInt 0))
      | _ => "Error: " +:+ exn_str w (TypeError OpLen choices)
      end).
Proof.
  intros Hjson Hnoerr Hchoices Hnolist.
  rewrite (respond_classified _ Hjson).
  unfold classify, Py.bind, lift, ret.
  assert (contains "error" (VDict body) = Return false) as ->.
  { unfold contains. by rewrite bool_decide_eq_false_2 by (rewrite Hnoerr; by intros [? ?]). }
  assert (contains "choices" (VDict body) = Return true) as ->.
  { unfold contains. by rewrite bool_decide_eq_true_2 by (rewrite Hchoices; eauto). }
  assert (getitem (VDict body) (KStr "choices") = Return choices) as ->.
  { unfold getitem. by rewrite Hchoices. }
  destruct choices as [| | | |s|l|members]; try reflexivity.
  - destruct s as [|c s]; [reflexivity|].
    rewrite first_character. unfold len, contains.
    rewrite single_char_lacks_message.
    by destruct (0 <? Z.of_nat (String.length (String c s))).
  - by destruct (Hnolist l).
  - unfold len. destruct (decide (members = ∅)) as [->|Hne]; [reflexivity|].
    assert (size members ≠ 0%nat) as Hsize by (by intros ?%map_size_empty_inv).
    destruct (size members) as [|n]; [done|]. reflexivity.
Qed.

Lemma respond_error_member (body : gmap string value) (err : value) :
  json response = Return (VDict body) →
  body !! "error" = Some err →
  respond_result w message history =
    Return (VStr match err with
                 | VDict fields =>
                     match fields !! "message" with
                     | Some msg => "API Error: " +:+ format w msg
                     | None => "Error: " +:+ exn_str w (KeyError (KStr "message"))
                     end
                 | _ => "Error: "
                        +:+ exn_str w (TypeError (OpSubscript (KStr "message")) err)
                 end).
Proof.
  intros Hjson Herr. rewrite (respond_classified _ Hjson).
  unfold classify, Py.bind, lift, ret, contains, getitem. simpl.
  rewrite bool_decide_eq_true_2 by (rewrite Herr; eauto).
  rewrite Herr. destruct err as [| | | | | |fields]; try reflexivity.
  by destruct (fields !! "message").
Qed.

Lemma respond_scalar (response_json : value) :
  json response = Return response_json →
  scalar response_json = true →
  respond_result w message history
    = Return (VStr ("Error: " +:+ exn_str w (TypeError OpContains response_json))).
Proof.
  intros Hjson Hscalar. rewrite (respond_classified _ Hjson).
  by destruct response_json.
Qed.

Lemma respond_array (l : list value) :
  json response = Return (VList l) →
  respond_result w message history =
    Return (VStr
      match contains "error" (VList l), contains "choices" (VList l) with
      | Return true, _ =>
          "Error: " +:+ exn_str w (TypeError (OpSubscript (KStr "error")) (VList l))
      | _, Return true =>
          "Error: " +:+ exn_str w (TypeError (OpSubscript (KStr "choices")) (VList l))
      | _, _ => could_not_parse
      end).
Proof.
  intros Hjson. rewrite (respond_classified _ Hjson).
  unfold classify, Py.bind, lift, ret, getitem.
  destruct (contains "error" (VList l)) as [[|]| |] eqn:He;
    destruct (contains "choices" (VList l)) as [[|]| |] eqn:Hc;
    try discriminate; reflexivity.
Qed.

End Replies.

(** X10: what line 96 does with the first choice's message.  When the
    decoded body is an object without an ["error"] member whose ["choices"]
    member is a list that starts with an object holding a ["message"] member,
    the further choices are not looked at, and: if that member is an object
    with a ["content"] member, [respond] returns the content as it is (the
    success branch); if it is an object without ["content"], the handler's
    string for the [KeyError] comes back; if it is not an object, the
    handler's string for the [TypeError]. *)
Theorem first_message_decides (w : World) (message : string) (history : value)
    (docs : list Document) (response : Response)
    (body first : gmap string value) (rest : list value) (msg : value)
    (Hdocs : retriever_invoke w message = Return docs)
    (Hpost : requests_post w URL (headers w)
               (data w message (knowledge_block docs (max_knowledge_tokens message)))
             = Return response)
    (Hjson : json response = Return (VDict body))
    (Hnoerr : body !! "error" = None)
    (Hchoices : body !! "choices" = Some (VList (VDict first :: rest)))
    (Hmsg : first !! "message" = Some msg) :
  respond_result w message history =
    match msg with
    | VDict fields =>
        match fields !! "content" with
        | Some answer => Return answer
        | None => Return (VStr ("Error: " +:+ exn_str w (KeyError (KStr "content"))))
        end
    | _ => Return (VStr ("Error: "
                         +:+ exn_str w (TypeError (OpSubscript (KStr "content")) msg)))
    end.
Proof. by apply respond_first_message with docs response body first rest. Qed.

Lemma first_message_decides_witness :
  respond_result (world_replying [doc_300] (Return body_answer))
    "What is RAG?" (VList [])
  = Return (VStr "RAG is ...").
Proof.
  pose proof (first_message_decides
                (world_replying [doc_300] (Return body_answer))
                "What is RAG?" (VList []) [doc_300]
                {| status_code := 200; json := Return body_answer |}
                {[ "choices" :=
                     VList [ VDict {[ "message" := VDict {[ "content" := VStr "RAG is ..." ]} ]};
                             VDict {[ "message" := VDict {[ "content" := VStr "second" ]} ]} ] ]}
                {[ "message" := VDict {[ "content" := VStr "RAG is ..." ]} ]}
                [ VDict {[ "message" := VDict {[ "content" := VStr "second" ]} ]} ]
                (VDict {[ "content" := VStr "RAG is ..." ]})) as H.
  exact (H eq_refl eq_refl eq_refl eq_refl eq_refl eq_refl).
Defined.

(** X11: an ["error"] member always wins, well-formed or not.  When the
    decoded object has an ["error"] member, the choices are never looked at:
    the result is the API-error string when the member is an object with a
    ["message"], and otherwise the handler's string for the [KeyError] (an
    object without ["message"]) or the [TypeError] (a member that is not an
    object) that the subscript raises. *)
Theorem error_member_decides (w : World) (message : string) (history : value)
    (docs : list Document) (response : Response)
    (body : gmap string value) (err : value)
    (Hdocs : retriever_invoke w message = Return docs)
    (Hpost : requests_post w URL (headers w)
               (data w message (knowledge_block docs (max_knowledge_tokens message)))
             = Return response)
    (Hjson : json response = Return (VDict body))
    (Herr : body !! "error" = Some err) :
  respond_result w message history =
    Return (VStr match err with
                 | VDict fields =>
                     match fields !! "message" with
                     | Some msg => "API Error: " +:+ format w msg
                     | None => "Error: " +:+ exn_str w (KeyError (KStr "message"))
                     end
                 | _ => "Error: "
                        +:+ exn_str w (TypeError (OpSubscript (KStr "message")) err)
                 end).
Proof. by apply respond_error_member with docs response body. Qed.

Lemma error_member_decides_witness :
  respond_result (world_replying [] (Return body_error_no_message))
    "What is RAG?" (VList [])
  = Return (VStr "Error: 'message'").
Proof.
  pose proof (error_member_decides
                (world_replying [] (Return body_error_no_message))
                "What is RAG?" (VList []) []
                {| status_code := 200; json := Return body_error_no_message |}
                {[ "error" := VDict {[ "code" := VInt 429 ]} ]}
                (VDict {[ "code" := VInt 429 ]})) as H.
  exact (H eq_refl eq_refl eq_refl eq_refl).
Defined.

(** X12: decoded bodies that are not objects.  [null], a boolean or a number
    makes the first membership test raise [TypeError], and the handler's
    string comes back.  For an array the test looks for an element equal to
    the string: an array holding ["error"] (or else ["choices"]) makes the
    subscript raise [TypeError], and any other array, the empty one included,
    gives the could-not-parse string. *)
Theorem non_object_body (w : World) (message : string) (history : value)
    (docs : list Document) (response : Response) (response_json : value)
    (Hdocs : retriever_invoke w message = Return docs)
    (Hpost : requests_post w URL (headers w)
               (data w message (knowledge_block docs (max_knowledge_tokens message)))
             = Return response)
    (Hjson : json response = Return response_json) :
  (scalar response_json = true →
     respond_result w message history
       = Return (VStr ("Error: " +:+ exn_str w (TypeError OpContains response_json)))) ∧
  (∀ l, response_json = VList l →
     (VStr "error" ∈ l →
        respond_result w message history
          = Return (VStr ("Error: "
              +:+ exn_str w (TypeError (OpSubscript (KStr "error")) (VList l))))) ∧
     (VStr "error" ∉ l → VStr "choices" ∈ l →
        respond_result w message history
          = Return (VStr ("Error: "
              +:+ exn_str w (TypeError (OpSubscript (KStr "choices")) (VList l))))) ∧
     (VStr "error" ∉ l → VStr "choices" ∉ l →
        respond_result w message history = Return (VStr could_not_parse))).
Proof.
  split.
  - intros Hscalar. by apply respond_scalar with docs response.
  - intros l ->.
    pose proof (respond_array w message history docs response Hdocs Hpost l Hjson) as Hres.
    destruct (contains_list_elem "error" l) as [Hein Heout].
    destruct (contains_list_elem "choices" l) as [Hcin Hcout].
    split_and!.
    + intros Hin. by rewrite Hres, (Hein Hin).
    + intros Hout Hin. by rewrite Hres, (Heout Hout), (Hcin Hin).
    + intros Hout Hout'. by rewrite Hres, (Heout Hout), (Hcout Hout').
Qed.

Lemma non_object_body_witness :
  respond_result (world_replying [] (Return (VList []))) "What is RAG?" (VList [])
  = Return (VStr could_not_parse).
Proof.
  pose proof (non_object_body (world_replying [] (Return (VList [])))
                "What is RAG?" (VList []) []
                {| status_code := 200; json := Return (VList []) |} (VList [])) as H.
  destruct H as (_ & H); [reflexivity..|].
  destruct (H [] eq_refl) as (_ & _ & Hnone).
  apply Hnone; by intros ?%elem_of_nil.
Defined.

(** X14: a ["choices"] member that is not a list.  With no ["error"] member
    in the decoded object: a string under ["choices"], empty or not, gives the
    could-not-parse string (its first character is a one-character string,
    which does not contain ["message"]); an empty object gives it too; a
    non-empty object makes the subscript [[0]] raise [KeyError]; [null], a
    boolean or a number makes [len] raise [TypeError]; in the last two cases
    the handler's string comes back. *)
Theorem choices_not_a_list (w : World) (message : string) (history : value)
    (docs : list Document) (response : Response)
    (body : gmap string value) (choices : value)
    (Hdocs : retriever_invoke w message = Return docs)
    (Hpost : requests_post w URL (headers w)
               (data w message (knowledge_block docs (max_knowledge_tokens message)))
             = Return response)
    (Hjson : json response = Return (VDict body))
    (Hnoerr : body !! "error" = None)
    (Hchoices : body !! "choices" = Some choices)
    (Hnolist : ∀ l, choices ≠ VList l) :
  respond_result w message history =
    Return (VStr
      match choices with
      | VStr _ => could_not_parse
      | VDict members =>
          if decide (members = ∅) then could_not_parse
          else "Error: " +:+ exn_str w (KeyError (KInt 0))
      | _ => "Error: " +:+ exn_str w (TypeError OpLen choices)
      end).
Proof. by apply respond_choices_not_list with docs response body. Qed.

Lemma choices_not_a_list_witness :
  respond_result (world_replying [] (Return (VDict {[ "choices" := VStr "none" ]})))
    "What is RAG?" (VList [])
  = Return (VStr could_not_parse).
Proof.
  pose proof (choices_not_a_list
                (world_replying [] (Return (VDict {[ "choices" := VStr "none" ]})))
                "What is RAG?" (VList []) []
                {| status_code := 200;
                   json := Return (VDict {[ "choices" := VStr "none" ]}) |}
                {[ "choices" := VStr "none" ]} (VStr "none")) as H.
  apply H; try reflexivity. intros l. discriminate.
Defined.

(** ** Configuration and start-up *)

(** X13: how the environment reaches the request and the start-up lines.  An
    unset [OPENROUTER_API_KEY] is announced as not available and sent as
    ["Bearer None"]; one set to the empty string is announced as not
    available as well, but sent as ["Bearer "]; any other value is announced
    as available and sent after ["Bearer "].  [OPENROUTER_MODEL] is used as
    it is whenever it is set, the empty string included, and the default
    model only when it is unset.  Start-up prints three lines, which depend on
    the key only through its being available. *)
Theorem configuration_flow (environ : gmap string string) (w : World)
    (message knowledge : string) (out : list string) :
  let configured := configure environ w in
  let model := match environ !! "OPENROUTER_MODEL" with
               | Some name => name
               | None => "openai/gpt-3.5-turbo"
               end in
  let '(available, bearer) :=
    match environ !! "OPENROUTER_API_KEY" with
    | None => ("No", "None")
    | Some EmptyString => ("No", EmptyString)
    | Some key => ("Yes", key)
    end in
  main configured out
    = (out ++ [ "Starting RAG Chatbot with model: " +:+ model;
                "API Key available: " +:+ available;
                "Using token limit: 14000" ],
       Return tt) ∧
  getitem (headers configured) (KStr "Authorization")
    = Return (VStr ("Bearer " +:+ bearer)) ∧
  getitem (data configured message knowledge) (KStr "model") = Return (VStr model).
Proof.
  unfold main, headers, Py.bind, print, configure, getenv, getenv_or. simpl.
  change (pretty MAX_TOKENS) with "14000".
  destruct (environ !! "OPENROUTER_MODEL") as [name|];
    destruct (environ !! "OPENROUTER_API_KEY") as [[|a key]|]; simpl;
    rewrite <- !app_assoc; by split_and!.
Qed.
